(** * mnemonic-case: the transfer endpoint of the ledger service

    A shallow embedding of [app/models.py], [app/schemas.py] and
    [app/main.py].  Python's [float] is IEEE 754 binary64 with round to
    nearest even, which is what the kernel's primitive [float] computes,
    so amounts and balances are primitive floats and [<], [>=], [-=] and
    [+=] are the float operations.  The database is the committed content
    of the two tables; a request handler is a function from the committed
    content to the response and the new committed content. *)

From Stdlib Require Import ZArith Floats Lia.
From stdpp Require Import gmap strings pretty.

Open Scope Z_scope.

(** A [datetime] is a point on the wall clock. *)
Definition datetime := Z.

(** ** app/models.py

    A table is a finite map from the primary key [id] to the other
    columns of the row. *)
Module models.

Record AccountModel := {
  name : string;
  available_cash : float
}.

Record TransactionModel := {
  executed_time : option datetime;
  registered_time : option datetime;
  success : bool;
  cash_amount : float;
  source_account_id : Z;
  destination_account_id : Z
}.

(** [Column(Integer, primary_key=True, autoincrement=True)]: the next
    key is one more than the largest key of the table. *)
Definition autoincrement {A} (table : gmap Z A) : Z :=
  1 + map_fold (λ k _ acc, Z.max k acc) 0 table.

End models.

(** ** app/schemas.py *)
Module schemas.

Record CreateAccount := {
  name : string;
  available_cash : float
}.

Record CreateTransaction := {
  cash_amount : float;
  source_account_id : Z;
  destination_account_id : Z
}.

End schemas.

(** ** The committed database

    Modelled from the spec: [app/database.py] ([engine], [SessionLocal],
    [Base]) is not among the sources.  The store is the Ledger Store of
    section 4.2: point lookup by id and atomic, all-or-nothing commit of a
    set of writes.  A [Float] column holds the Python float it was given
    and an [Integer] column any integer.  The declared foreign keys are
    not enforced: the tests expect 404 for an account id that is in no
    row, which the handler can only answer when the insert of line 46,
    carrying that id, was accepted. *)
Record Database := {
  accounts : gmap Z models.AccountModel;
  transactions : gmap Z models.TransactionModel
}.

(** ** app/main.py *)

Record HTTPException := {
  status_code : Z;
  detail : string
}.

(** The five [raise HTTPException(...)] statements of
    [process_transaction] and the handler of its [try] block. *)
Definition InvalidAmount : HTTPException :=
  {| status_code := 400; detail := "Cash amount must be positive." |}.
Definition SameAccount : HTTPException :=
  {| status_code := 400;
     detail := "Source and destination accounts must be different." |}.
Definition SourceNotFound : HTTPException :=
  {| status_code := 404; detail := "Source account not found." |}.
Definition DestinationNotFound : HTTPException :=
  {| status_code := 404; detail := "Destination account not found." |}.
Definition InsufficientFunds : HTTPException :=
  {| status_code := 400; detail := "Insufficient funds in source account." |}.
Definition InternalError (e : string) : HTTPException :=
  {| status_code := 500;
     detail := "An error occurred while processing the transaction: " ++ e |}.

(** What one call of a handler leaves behind: the response, the account
    rows on which [with_for_update()] took a row lock, in the order they
    were taken, and the committed database. *)
Record Outcome (A : Type) := {
  response : HTTPException + A;
  for_update : list Z;
  committed : Database
}.
Arguments response {A} _.
Arguments for_update {A} _.
Arguments committed {A} _.

(** Lines 41-47: the row is built from the request and [success=False],
    added and committed.  [registered_time] is not given, so the column
    default applies; the default is [datetime.now()], evaluated once, when
    the class body of [TransactionModel] ran.  [loaded_at] is that value. *)
Definition new_transaction (loaded_at : datetime)
    (transaction : schemas.CreateTransaction) : models.TransactionModel :=
  {| models.executed_time := None;
     models.registered_time := Some loaded_at;
     models.success := false;
     models.cash_amount := schemas.cash_amount transaction;
     models.source_account_id := schemas.source_account_id transaction;
     models.destination_account_id :=
       schemas.destination_account_id transaction |}.

Definition add_and_commit (row : models.TransactionModel) (db : Database)
    : Z * Database :=
  let id := models.autoincrement (transactions db) in
  (id, {| accounts := accounts db;
          transactions := <[id := row]> (transactions db) |}).

(** Lines 80-83: the in-session changes of the success branch. *)
Definition debit (amount : float) (a : models.AccountModel)
    : models.AccountModel :=
  {| models.name := models.name a;
     models.available_cash := (models.available_cash a - amount)%float |}.

Definition credit (amount : float) (a : models.AccountModel)
    : models.AccountModel :=
  {| models.name := models.name a;
     models.available_cash := (models.available_cash a + amount)%float |}.

Definition executed (now : datetime) (row : models.TransactionModel)
    : models.TransactionModel :=
  {| models.executed_time := Some now;
     models.registered_time := models.registered_time row;
     models.success := true;
     models.cash_amount := models.cash_amount row;
     models.source_account_id := models.source_account_id row;
     models.destination_account_id := models.destination_account_id row |}.

(** [process_transaction], lines 29-95.

    - [loaded_at]: the column default of [registered_time] (see above);
    - [now]: what [datetime.now()] returns on line 83;
    - [fault]: [Some e] when [db.commit()] on line 84, inside the [try]
      block, raises [e]; [None] when that commit goes through.  The
      handler then rolls back, so nothing of lines 80-83 is committed.
      The commit of line 46 is outside any [try] and is taken to go
      through;
    - a raised [HTTPException] leaves the session without a commit, so the
      committed database is the one of line 46.

    [a >= b] on floats is [b <=? a]. *)
Definition process_transaction (loaded_at now : datetime)
    (fault : option string) (transaction : schemas.CreateTransaction)
    (db : Database) : Outcome (Z * models.TransactionModel) :=
  let row := new_transaction loaded_at transaction in
  let '(id, db1) := add_and_commit row db in
  let amount := schemas.cash_amount transaction in
  let raise e locked :=
    {| response := inl e; for_update := locked; committed := db1 |} in
  if (amount <? 0)%float then raise InvalidAmount []
  else
    let source_account_id := schemas.source_account_id transaction in
    let destination_account_id :=
      schemas.destination_account_id transaction in
    if bool_decide (source_account_id = destination_account_id)
    then raise SameAccount []
    else
      match accounts db1 !! source_account_id with
      | None => raise SourceNotFound []
      | Some source_account =>
        match accounts db1 !! destination_account_id with
        | None => raise DestinationNotFound [source_account_id]
        | Some destination_account =>
          let locked := [source_account_id; destination_account_id] in
          if (amount <=? models.available_cash source_account)%float
          then
            match fault with
            | Some e => raise (InternalError e) locked
            | None =>
              let row' := executed now row in
              {| response := inr (id, row');
                 for_update := locked;
                 committed :=
                   {| accounts :=
                        <[destination_account_id :=
                            credit amount destination_account]>
                          (<[source_account_id :=
                               debit amount source_account]>
                             (accounts db1));
                      transactions := <[id := row']> (transactions db1) |}
              |}
            end
          else raise InsufficientFunds locked
        end
      end.

(** [create_account], lines 114-130: the row is built from the request as
    it is, added and committed; the request is echoed. *)
Definition create_account (account : schemas.CreateAccount) (db : Database)
    : Outcome schemas.CreateAccount :=
  let new_account :=
    {| models.name := schemas.name account;
       models.available_cash := schemas.available_cash account |} in
  let id := models.autoincrement (accounts db) in
  {| response := inr account;
     for_update := [];
     committed := {| accounts := <[id := new_account]> (accounts db);
                     transactions := transactions db |} |}.

(** [retrieve_account], lines 148-162. *)
Definition retrieve_account (id : Z) (db : Database)
    : HTTPException + (Z * models.AccountModel) :=
  match accounts db !! id with
  | Some account_model => inr (id, account_model)
  | None =>
    inl {| status_code := 404;
           detail := "Account with id " ++ pretty id ++ " does not exist" |}
  end.

(** [retrieve_accounts], lines 133-145, and [retrieve_transactions],
    lines 98-111: every row of the table, each with its id, as
    [model_validate] reads it off the row.  The queries have no
    [ORDER BY]; the order of the list is the store's and nothing below
    depends on it. *)
Definition retrieve_accounts (db : Database)
    : list (Z * models.AccountModel) :=
  map_to_list (accounts db).

Definition retrieve_transactions (db : Database)
    : list (Z * models.TransactionModel) :=
  map_to_list (transactions db).

(** ** Sequences of requests

    One [Call] is one request with its environment: what the clock shows
    and whether the final commit raises. *)
Record Call := {
  call_now : datetime;
  call_fault : option string;
  call_request : schemas.CreateTransaction
}.

Fixpoint serve (loaded_at : datetime) (calls : list Call) (db : Database)
    : Database :=
  match calls with
  | [] => db
  | c :: calls' =>
    serve loaded_at calls'
      (committed (process_transaction loaded_at (call_now c) (call_fault c)
                    (call_request c) db))
  end.

(** ** Vocabulary of the properties *)

(** Every committed balance satisfies [available_cash >= 0]. *)
Definition nonnegative_balances (db : Database) : Prop :=
  map_Forall (λ _ a, (0 <=? models.available_cash a)%float = true)
    (accounts db).

(** In every row, [success] is set exactly when [executed_time] is. *)
Definition executed_rows_marked (db : Database) : Prop :=
  map_Forall (λ _ r, models.success r = true
                     ↔ is_Some (models.executed_time r))
    (transactions db).

(** The same amount of money: the same float, or floats that Python's
    [==] equates ([0.0] and [-0.0]). *)
Definition same_amount (x y : float) : Prop :=
  x = y ∨ (x =? y)%float = true.

Definition SFnonneg (x : spec_float) : bool := SFleb (S754_zero false) x.

(** The checks of a transfer as the specification lists them (section
    4.1, steps 2 to 6), each with the condition under which it fails and
    the error it raises.  These follow the words of the specification,
    not the code: step 2 is "validate [amount > 0]", so the amount check
    fails for every amount that is not above zero. *)
Inductive Check :=
  | AmountValidity
  | DistinctAccounts
  | SourceExists
  | DestinationExists
  | SufficientFunds.

Definition check_order : list Check :=
  [AmountValidity; DistinctAccounts; SourceExists; DestinationExists;
   SufficientFunds].

Definition fails (transaction : schemas.CreateTransaction) (db : Database)
    (c : Check) : bool :=
  let amount := schemas.cash_amount transaction in
  let src := schemas.source_account_id transaction in
  let dst := schemas.destination_account_id transaction in
  match c with
  | AmountValidity => negb (0 <? amount)%float
  | DistinctAccounts => bool_decide (src = dst)
  | SourceExists =>
    match accounts db !! src with Some _ => false | None => true end
  | DestinationExists =>
    match accounts db !! dst with Some _ => false | None => true end
  | SufficientFunds =>
    match accounts db !! src with
    | Some a => negb (amount <=? models.available_cash a)%float
    | None => false
    end
  end.

Definition error_of (c : Check) : HTTPException :=
  match c with
  | AmountValidity => InvalidAmount
  | DistinctAccounts => SameAccount
  | SourceExists => SourceNotFound
  | DestinationExists => DestinationNotFound
  | SufficientFunds => InsufficientFunds
  end.

Definition first_failure (transaction : schemas.CreateTransaction)
    (db : Database) : option HTTPException :=
  error_of <$> List.find (fails transaction db) check_order.

(** The row locks in request order, as far as the handler gets. *)
Definition locks_in_request_order (transaction : schemas.CreateTransaction)
    (db : Database) : list Z :=
  let src := schemas.source_account_id transaction in
  let dst := schemas.destination_account_id transaction in
  if (schemas.cash_amount transaction <? 0)%float then []
  else if bool_decide (src = dst) then []
  else
    match accounts db !! src, accounts db !! dst with
    | None, _ => []
    | Some _, None => [src]
    | Some _, Some _ => [src; dst]
    end.

(** ** The fixture of [tests/integration_test.py] *)
Definition account (n : string) (cash : float) : models.AccountModel :=
  {| models.name := n; models.available_cash := cash |}.

Definition test_accounts : Database :=
  {| accounts :=
       <[1 := account "Alice" 1000%float]>
         (<[2 := account "Bob" 500%float]>
            (<[3 := account "Charlie" 300%float]> ∅));
     transactions := ∅ |}.

Definition payload (cash_amount : float) (source destination : Z)
    : schemas.CreateTransaction :=
  {| schemas.cash_amount := cash_amount;
     schemas.source_account_id := source;
     schemas.destination_account_id := destination |}.

Definition two_accounts (a b : float) : Database :=
  {| accounts := <[1 := account "A" a]> (<[2 := account "B" b]> ∅);
     transactions := ∅ |}.

(** * Binary64 arithmetic

    What the proofs need of IEEE 754 subtraction and addition, from the
    specification of the primitive operations ([SpecFloat]). *)
Section Binary64.

Lemma digits2_pos_bounds (m : positive) :
  2 ^ (Zpos (digits2_pos m) - 1) <= Zpos m < 2 ^ Zpos (digits2_pos m).
Proof.
  induction m as [p IH | p IH |]; cbn [digits2_pos].
  - rewrite Pos2Z.inj_succ, Z.pow_succ_r by lia.
    replace (Z.succ (Zpos (digits2_pos p)) - 1)
      with (Z.succ (Zpos (digits2_pos p) - 1)) by lia.
    rewrite Z.pow_succ_r by lia. lia.
  - rewrite Pos2Z.inj_succ, Z.pow_succ_r by lia.
    replace (Z.succ (Zpos (digits2_pos p)) - 1)
      with (Z.succ (Zpos (digits2_pos p) - 1)) by lia.
    rewrite Z.pow_succ_r by lia. lia.
  - cbn. lia.
Qed.

Lemma shl_align_value (m : positive) (e e' : Z) :
  e' <= e -> Zpos (fst (shl_align m e e')) = Zpos m * 2 ^ (e - e').
Proof.
  intros Hle. unfold shl_align.
  destruct (e' - e) as [|d|d] eqn:Hd.
  - replace (e - e') with 0 by lia. cbn [fst]. rewrite Z.pow_0_r. lia.
  - lia.
  - cbn [fst]. change (Pos.iter xO m d) with (shift_pos d m).
    rewrite shift_pos_correct, Z.pow_pos_fold.
    assert (He : e - e' = Zpos d) by (pose proof (Pos2Z.opp_pos d); lia).
    rewrite He. lia.
Qed.

Lemma shr_1_nonneg mrs : 0 <= shr_m mrs -> 0 <= shr_m (shr_1 mrs).
Proof.
  destruct mrs as [m r s]. cbn [shr_m].
  destruct m as [|[p|p|]|[p|p|]]; cbn; lia.
Qed.

Lemma iter_shr_1_nonneg (p : positive) :
  forall mrs, 0 <= shr_m mrs -> 0 <= shr_m (SpecFloat.iter_pos shr_1 p mrs).
Proof.
  induction p as [p IH | p IH |]; intros mrs Hm; cbn [SpecFloat.iter_pos].
  - apply IH, IH, shr_1_nonneg, Hm.
  - apply IH, IH, Hm.
  - apply shr_1_nonneg, Hm.
Qed.

Lemma shr_fexp_nonneg (m e : Z) (l : location) :
  0 <= m -> 0 <= shr_m (fst (shr_fexp prec emax m e l)).
Proof.
  intros Hm. unfold shr_fexp, shr.
  assert (H0 : 0 <= shr_m (shr_record_of_loc m l))
    by (destruct l as [|[]]; exact Hm).
  destruct (fexp prec emax (Zdigits2 m + e) - e); cbn [fst]; trivial.
  apply iter_shr_1_nonneg, H0.
Qed.

Lemma round_nearest_even_nonneg (m : Z) (l : location) :
  0 <= m -> 0 <= round_nearest_even m l.
Proof.
  intros Hm. destruct l as [|[]]; cbn [round_nearest_even]; try lia.
  destruct (Z.even m); lia.
Qed.

Lemma binary_round_aux_nonneg (m e : Z) (l : location) :
  0 <= m -> SFnonneg (binary_round_aux prec emax false m e l) = true.
Proof.
  intros Hm. unfold binary_round_aux.
  pose proof (shr_fexp_nonneg m e l Hm) as H1.
  destruct (shr_fexp prec emax m e l) as [mrs' e'] eqn:E1. cbn [fst] in H1.
  pose proof (shr_fexp_nonneg _ e' loc_Exact
                (round_nearest_even_nonneg _ (loc_of_shr_record mrs') H1)) as H2.
  destruct (shr_fexp prec emax _ e' loc_Exact) as [mrs'' e''] eqn:E2.
  cbn [fst] in H2.
  destruct (shr_m mrs'') as [|q|q]; try lia; [reflexivity|].
  destruct (e'' <=? emax - prec); reflexivity.
Qed.

Lemma binary_normalize_nonneg (m e : Z) :
  0 <= m -> SFnonneg (binary_normalize prec emax m e false) = true.
Proof.
  intros Hm. destruct m as [|p|p]; try lia; [reflexivity|].
  cbn [binary_normalize]. unfold binary_round.
  destruct (shl_align p e _) as [mz ez].
  apply binary_round_aux_nonneg. lia.
Qed.


(** Two valid positive finite floats compare as their values do, so the
    aligned mantissas of a larger and a smaller one differ by a natural
    number. *)
Lemma aligned_mantissas_le (mx my : positive) (ex ey : Z) :
  bounded prec emax mx ex = true ->
  bounded prec emax my ey = true ->
  SFleb (S754_finite false my ey) (S754_finite false mx ex) = true ->
  Zpos (fst (shl_align my ey (Z.min ex ey)))
    <= Zpos (fst (shl_align mx ex (Z.min ex ey))).
Proof.
  unfold bounded, canonical_mantissa, fexp, SFleb, SFcompare.
  intros Hx Hy Hle.
  apply andb_prop in Hx as [Hx _]. apply andb_prop in Hy as [Hy _].
  apply Z.eqb_eq in Hx. apply Z.eqb_eq in Hy.
  change (SpecFloat.emin prec emax) with (-1074) in Hx, Hy.
  change prec with 53 in Hx, Hy.
  rewrite !shl_align_value by lia.
  destruct (Z.compare_spec ey ex) as [-> | Hlt | Hgt]; try discriminate.
  - replace (Z.min ex ex) with ex by lia.
    replace (ex - ex) with 0 by lia. rewrite Z.pow_0_r.
    unfold Pos.compare in *.
    assert (my <= mx)%positive.
    { unfold Pos.le, Pos.compare. destruct (Pos.compare_cont Eq my mx); congruence. }
    lia.
  - replace (Z.min ex ey) with ey by lia.
    replace (ey - ey) with 0 by lia. rewrite Z.pow_0_r.
    pose proof (digits2_pos_bounds mx) as [Bx _].
    pose proof (digits2_pos_bounds my) as [_ By].
    assert (Dx : Zpos (digits2_pos mx) = 53) by lia.
    assert (Dy : Zpos (digits2_pos my) <= 53) by lia.
    rewrite Dx in Bx.
    assert (By' : Zpos my < 2 ^ 53).
    { eapply Z.lt_le_trans; [exact By|]. apply Z.pow_le_mono_r; lia. }
    assert (P : 2 ^ 1 <= 2 ^ (ex - ey)) by (apply Z.pow_le_mono_r; lia).
    change (2 ^ (53 - 1)) with 4503599627370496 in Bx.
    change (2 ^ 53) with 9007199254740992 in By'.
    change (2 ^ 1) with 2 in P.
    nia.
Qed.

Lemma SFsub_nonneg (x y : spec_float) :
  valid_binary x = true -> valid_binary y = true ->
  SFleb y x = true ->
  SFltb y (S754_zero false) = false ->
  y <> S754_infinity false ->
  SFnonneg (SF64sub x y) = true.
Proof.
  intros Vx Vy Hle Hlt Hinf.
  destruct y as [sy|[|]| |[|] my ey]; try discriminate; try congruence.
  - destruct x as [sx|[|]| |[|] mx ex]; try discriminate;
      try reflexivity.
    destruct sx, sy; reflexivity.
  - destruct x as [sx|[|]| |[|] mx ex]; try discriminate;
      try reflexivity.
    cbn [SF64sub SFsub cond_Zopp].
    apply binary_normalize_nonneg.
    pose proof (aligned_mantissas_le mx my ex ey Vx Vy Hle). lia.
Qed.

Lemma SFadd_nonneg (x y : spec_float) :
  SFnonneg x = true ->
  SFltb y (S754_zero false) = false ->
  y <> S754_nan ->
  SFnonneg (SF64add x y) = true.
Proof.
  intros Hx Hy Hnan.
  destruct x as [sx|[|]| |[|] mx ex]; try discriminate;
    destruct y as [sy|[|]| |[|] my ey]; try discriminate; try congruence;
    try reflexivity.
  - destruct sx, sy; reflexivity.
  - cbn [SF64add SFadd cond_Zopp].
    apply binary_normalize_nonneg. lia.
Qed.


Lemma SFeqb_refl (x : spec_float) : x <> S754_nan -> SFeqb x x = true.
Proof.
  intros Hx. unfold SFeqb, SFcompare.
  destruct x as [s|[|]| |[|] m e]; try reflexivity; try congruence;
    rewrite Z.compare_refl; change (Pos.compare_cont Eq m m) with (m ?= m)%positive;
    rewrite Pos.compare_refl; reflexivity.
Qed.

Lemma SFsub_zero (x y : spec_float) :
  SFeqb y (S754_zero false) = true ->
  SF64sub x y = x \/ SFeqb (SF64sub x y) x = true.
Proof.
  intros Hy.
  destruct y as [sy|[|]| |[|] my ey]; try discriminate.
  destruct x as [sx|[|]| |[|] mx ex]; try (left; reflexivity).
  right. destruct sx, sy; reflexivity.
Qed.

Lemma SFadd_zero (x y : spec_float) :
  SFeqb y (S754_zero false) = true ->
  SF64add x y = x \/ SFeqb (SF64add x y) x = true.
Proof.
  intros Hy.
  destruct y as [sy|[|]| |[|] my ey]; try discriminate.
  destruct x as [sx|[|]| |[|] mx ex]; try (left; reflexivity).
  right. destruct sx, sy; reflexivity.
Qed.

Lemma Prim2SF_inj (x y : float) : Prim2SF x = Prim2SF y -> x = y.
Proof.
  intros H. rewrite <- (SF2Prim_Prim2SF x), <- (SF2Prim_Prim2SF y).
  now rewrite H.
Qed.

Open Scope float_scope.

(** [x >= y], [y] not negative and not infinite: [x - y] is not negative. *)
Lemma sub_nonneg (x y : float) :
  (y <=? x) = true -> (y <? 0) = false -> y <> infinity ->
  (0 <=? x - y) = true.
Proof.
  rewrite !FloatAxioms.leb_spec, FloatAxioms.ltb_spec, FloatAxioms.sub_spec. intros Hle Hlt Hinf.
  apply SFsub_nonneg; auto using Prim2SF_valid.
  intros E. apply Hinf, Prim2SF_inj. exact E.
Qed.

(** [x >= 0] and [y] neither negative nor NaN: [x + y] is not negative. *)
Lemma add_nonneg (x y : float) :
  (0 <=? x) = true -> (y <? 0) = false -> (y =? y) = true ->
  (0 <=? x + y) = true.
Proof.
  rewrite !FloatAxioms.leb_spec, FloatAxioms.ltb_spec, FloatAxioms.eqb_spec, FloatAxioms.add_spec. intros Hx Hlt Hnan.
  apply SFadd_nonneg; auto.
  intros E. rewrite E in Hnan. discriminate.
Qed.

Lemma leb_not_nan (x y : float) : (x <=? y) = true -> (x =? x) = true.
Proof.
  rewrite FloatAxioms.leb_spec, FloatAxioms.eqb_spec. intros H. apply SFeqb_refl.
  intros E. rewrite E in H. discriminate.
Qed.

(** Subtracting or adding a zero of either sign gives the same amount. *)
Lemma sub_zero (x y : float) : (y =? 0) = true -> same_amount (x - y) x.
Proof.
  rewrite FloatAxioms.eqb_spec. intros Hy.
  destruct (SFsub_zero (Prim2SF x) _ Hy) as [E | E].
  - left. apply Prim2SF_inj. now rewrite FloatAxioms.sub_spec.
  - right. now rewrite FloatAxioms.eqb_spec, FloatAxioms.sub_spec.
Qed.

Lemma add_zero (x y : float) : (y =? 0) = true -> same_amount (x + y) x.
Proof.
  rewrite FloatAxioms.eqb_spec. intros Hy.
  destruct (SFadd_zero (Prim2SF x) _ Hy) as [E | E].
  - left. apply Prim2SF_inj. now rewrite FloatAxioms.add_spec.
  - right. now rewrite FloatAxioms.eqb_spec, FloatAxioms.add_spec.
Qed.

(** A zero of either sign is not below zero and not above a balance
    that is [>= 0]. *)
Lemma zero_not_ltb (y : float) : (y =? 0) = true -> (y <? 0) = false.
Proof.
  rewrite FloatAxioms.eqb_spec, FloatAxioms.ltb_spec.
  destruct (Prim2SF y) as [s|[|]| |[|] m e]; try discriminate; reflexivity.
Qed.

Lemma zero_leb (x y : float) :
  (y =? 0) = true -> (0 <=? x) = true -> (y <=? x) = true.
Proof.
  rewrite FloatAxioms.eqb_spec, !FloatAxioms.leb_spec.
  destruct (Prim2SF y) as [s|[|]| |[|] m e]; try discriminate.
  intros _. destruct (Prim2SF x) as [sx|[|]| |[|] mx ex]; trivial.
Qed.

End Binary64.

(** * The tables *)
Section Tables.
Context {A : Type}.

Lemma autoincrement_above (table : gmap Z A) (k : Z) :
  is_Some (table !! k) -> k < models.autoincrement table.
Proof.
  unfold models.autoincrement.
  revert k.
  apply (map_fold_weak_ind
           (λ r (m : gmap Z A), ∀ k, is_Some (m !! k) → k < 1 + r)).
  - intros k [x Hx]. rewrite lookup_empty in Hx. discriminate.
  - intros i x m r Hi IH k Hk.
    destruct (decide (i = k)) as [-> | Hne].
    + lia.
    + rewrite lookup_insert_ne in Hk by done.
      specialize (IH k Hk). lia.
Qed.

(** The key of a new row is not in use. *)
Lemma autoincrement_fresh (table : gmap Z A) :
  table !! models.autoincrement table = None.
Proof.
  destruct (table !! models.autoincrement table) eqn:E; [|done].
  pose proof (autoincrement_above table _ (mk_is_Some _ _ E)). lia.
Qed.
End Tables.

(** * The handler, case by case *)

(** Walks the branches of [process_transaction] in the order of its tests. *)
Ltac handler_cases :=
  unfold process_transaction, add_and_commit;
  cbn [accounts transactions fst snd];
  repeat match goal with
    | |- context [if (?a <? ?b)%float then _ else _] =>
        destruct (a <? b)%float eqn:?
    | |- context [if (?a <=? ?b)%float then _ else _] =>
        destruct (a <=? b)%float eqn:?
    | |- context [if bool_decide ?P then _ else _] =>
        destruct (bool_decide_reflect P)
    | |- context [match ?m !! ?k with Some _ => _ | None => _ end] =>
        destruct (m !! k) eqn:?
    | |- context [match ?f with Some _ => _ | None => _ end] =>
        is_var f; destruct f
    end;
  cbn [response for_update committed accounts transactions].

Section Handler.
Variables (loaded_at now : datetime) (fault : option string).
Variable transaction : schemas.CreateTransaction.
Variable db : Database.

Let out := process_transaction loaded_at now fault transaction db.
Let id := models.autoincrement (transactions db).
Let intent := new_transaction loaded_at transaction.
Let amount := schemas.cash_amount transaction.
Let src := schemas.source_account_id transaction.
Let dst := schemas.destination_account_id transaction.

(** A raised exception leaves the database as line 46 committed it. *)
Lemma raised_committed (e : HTTPException) :
  response out = inl e ->
  committed out =
    {| accounts := accounts db;
       transactions := <[id := intent]> (transactions db) |}.
Proof.
  subst out id intent. handler_cases; intros H; try reflexivity;
    discriminate.
Qed.

(** The errors a call can raise. *)
Lemma raised_kinds (e : HTTPException) :
  response out = inl e ->
  e ∈ [InvalidAmount; SameAccount; SourceNotFound; DestinationNotFound;
       InsufficientFunds]
  ∨ ∃ msg, fault = Some msg ∧ e = InternalError msg.
Proof.
  subst out. handler_cases; intros [= <-]; eauto;
    left; set_solver.
Qed.

(** The success branch: every test passes and the commit goes through. *)
Lemma executes (source_account destination_account : models.AccountModel) :
  (amount <? 0)%float = false ->
  src ≠ dst ->
  accounts db !! src = Some source_account ->
  accounts db !! dst = Some destination_account ->
  (amount <=? models.available_cash source_account)%float = true ->
  fault = None ->
  out =
    {| response := inr (id, executed now intent);
       for_update := [src; dst];
       committed :=
         {| accounts :=
              <[dst := credit amount destination_account]>
                (<[src := debit amount source_account]> (accounts db));
            transactions :=
              <[id := executed now intent]> (transactions db) |} |}.
Proof.
  intros Hamt Hne Hs Hd Hle ->.
  subst out id intent amount src dst.
  unfold process_transaction, add_and_commit.
  cbn [accounts transactions].
  rewrite Hamt, Hs, Hd, Hle.
  rewrite bool_decide_eq_false_2 by exact Hne.
  rewrite insert_insert_eq. reflexivity.
Qed.

End Handler.

(** * tests/integration_test.py

    The tests of the repository, run on the model. *)

Example test_successful_transaction :
  let out :=
    process_transaction 0 10 None (payload 200 1 2) test_accounts in
  (∃ id row, response out = inr (id, row)
             ∧ models.success row = true
             ∧ models.cash_amount row = 200%float
             ∧ models.source_account_id row = 1
             ∧ models.destination_account_id row = 2)
  ∧ retrieve_account 1 (committed out) = inr (1, account "Alice" 800)
  ∧ retrieve_account 2 (committed out) = inr (2, account "Bob" 700).
Proof.
  split; [|split]; [|reflexivity..].
  eexists _, _. repeat split; reflexivity.
Qed.

Example test_insufficient_funds :
  response (process_transaction 0 10 None (payload 1500 1 2) test_accounts)
  = inl {| status_code := 400;
           detail := "Insufficient funds in source account." |}.
Proof. reflexivity. Qed.

Example test_negative_cash_amount :
  response (process_transaction 0 10 None (payload (-100) 1 2)
              test_accounts)
  = inl {| status_code := 400; detail := "Cash amount must be positive." |}.
Proof. reflexivity. Qed.

Example test_same_source_and_destination_account :
  response (process_transaction 0 10 None (payload 100 1 1) test_accounts)
  = inl {| status_code := 400;
           detail := "Source and destination accounts must be different." |}.
Proof. reflexivity. Qed.

Example test_nonexistent_source_account :
  response (process_transaction 0 10 None (payload 100 99 2) test_accounts)
  = inl {| status_code := 404; detail := "Source account not found." |}.
Proof. reflexivity. Qed.

Example test_nonexistent_destination_account :
  response (process_transaction 0 10 None (payload 100 1 99) test_accounts)
  = inl {| status_code := 404; detail := "Destination account not found." |}.
Proof. reflexivity. Qed.

Example test_transaction_persistence :
  let calls :=
    [ {| call_now := 10; call_fault := None;
         call_request := payload 100 1 2 |};
      {| call_now := 20; call_fault := None;
         call_request := payload (-100) 1 2 |} ] in
  let db := serve 0 calls test_accounts in
  size (transactions db) = 2%nat
  ∧ (models.success <$> transactions db !! 1) = Some true
  ∧ (models.cash_amount <$> transactions db !! 1) = Some 100%float
  ∧ (models.success <$> transactions db !! 2) = Some false.
Proof. repeat split; reflexivity. Qed.

(** * Properties of the transfer endpoint *)

Lemma positive_not_negative (y : float) :
  (0 <? y)%float = true -> (y <? 0)%float = false.
Proof.
  rewrite !FloatAxioms.ltb_spec.
  destruct (Prim2SF y) as [s|[|]| |[|] m e]; try discriminate; reflexivity.
Qed.

(** C1 (as amended).  A request with [0 < amount], distinct existing
    accounts and [available_cash >= amount] at the source, whose final
    commit goes through, is executed: the response is the transaction
    with [success = True] and [executed_time] set, the source balance
    becomes the float [available_cash - amount], the destination balance
    the float [available_cash + amount], and no other account changes. *)
Theorem transfer_executes (loaded_at now : datetime)
    (transaction : schemas.CreateTransaction) (db : Database)
    (source_account destination_account : models.AccountModel) :
  let amount := schemas.cash_amount transaction in
  let src := schemas.source_account_id transaction in
  let dst := schemas.destination_account_id transaction in
  let out := process_transaction loaded_at now None transaction db in
  (0 <? amount)%float = true ->
  src ≠ dst ->
  accounts db !! src = Some source_account ->
  accounts db !! dst = Some destination_account ->
  (amount <=? models.available_cash source_account)%float = true ->
  ∃ id row source_account' destination_account',
    response out = inr (id, row)
    ∧ models.success row = true
    ∧ models.executed_time row = Some now
    ∧ transactions (committed out) !! id = Some row
    ∧ accounts (committed out) !! src = Some source_account'
    ∧ models.available_cash source_account'
      = (models.available_cash source_account - amount)%float
    ∧ accounts (committed out) !! dst = Some destination_account'
    ∧ models.available_cash destination_account'
      = (models.available_cash destination_account + amount)%float
    ∧ ∀ k, k ≠ src -> k ≠ dst ->
        accounts (committed out) !! k = accounts db !! k.
Proof.
  intros amount src dst out Hpos Hne Hs Hd Hle.
  subst out.
  rewrite (executes loaded_at now None transaction db _ _
             (positive_not_negative _ Hpos) Hne Hs Hd Hle eq_refl).
  cbn [response committed accounts transactions].
  eexists _, _, _, _. repeat split.
  - apply lookup_insert_eq.
  - rewrite lookup_insert_ne by (intros E; apply Hne; symmetry; exact E).
    apply lookup_insert_eq.
  - reflexivity.
  - apply lookup_insert_eq.
  - reflexivity.
  - intros k Hks Hkd.
    rewrite !lookup_insert_ne by (intros E; symmetry in E; contradiction).
    reflexivity.
Qed.

(** Scenario 1 of the specification, the first test of the repository:
    200 from Alice (1000) to Bob (500) leaves 800 and 700. *)
Lemma transfer_executes_witness :
  let out :=
    process_transaction 0 10 None (payload 200 1 2) test_accounts in
  ((0 <? 200)%float = true
   ∧ 1 ≠ 2
   ∧ accounts test_accounts !! 1 = Some (account "Alice" 1000)
   ∧ accounts test_accounts !! 2 = Some (account "Bob" 500)
   ∧ (200 <=? 1000)%float = true)
  ∧ ∃ id row source_account' destination_account',
    response out = inr (id, row)
    ∧ models.success row = true
    ∧ models.executed_time row = Some 10
    ∧ transactions (committed out) !! id = Some row
    ∧ accounts (committed out) !! 1 = Some source_account'
    ∧ models.available_cash source_account' = (1000 - 200)%float
    ∧ accounts (committed out) !! 2 = Some destination_account'
    ∧ models.available_cash destination_account' = (500 + 200)%float
    ∧ ∀ k, k ≠ 1 -> k ≠ 2 ->
        accounts (committed out) !! k = accounts test_accounts !! k.
Proof.
  split.
  - repeat split; try reflexivity. discriminate.
  - apply (transfer_executes 0 10 (payload 200 1 2) test_accounts
             (account "Alice" 1000) (account "Bob" 500));
      [reflexivity | discriminate | reflexivity | reflexivity | reflexivity].
Defined.

(** C1, as stated, fails: with a source balance of 1e16 and an amount of
    1 every condition of the claim holds and the transfer is executed,
    yet the source balance is still 1e16 and the destination balance went
    from 1 to 2. *)
Lemma exact_conservation_counterexample :
  let db := two_accounts 10000000000000000 1 in
  let out := process_transaction 0 10 None (payload 1 1 2) db in
  (0 <? 1)%float = true
  ∧ accounts db !! 1 = Some (account "A" 10000000000000000)
  ∧ accounts db !! 2 = Some (account "B" 1)
  ∧ (1 <=? 10000000000000000)%float = true
  ∧ (∃ r, response out = inr r)
  ∧ accounts (committed out) !! 1 = Some (account "A" 10000000000000000)
  ∧ accounts (committed out) !! 2 = Some (account "B" 2).
Proof.
  repeat split; try reflexivity. eexists. reflexivity.
Qed.

(** One call keeps [available_cash >= 0] everywhere, unless the amount is
    infinite. *)
Lemma process_transaction_nonnegative (loaded_at now : datetime)
    (fault : option string) (transaction : schemas.CreateTransaction)
    (db : Database) :
  nonnegative_balances db ->
  (schemas.cash_amount transaction =? infinity)%float = false ->
  nonnegative_balances
    (committed (process_transaction loaded_at now fault transaction db)).
Proof.
  unfold nonnegative_balances. intros Hdb Hfin.
  handler_cases; try exact Hdb.
  match goal with
  | Hs : accounts db !! _ = Some ?s, Hd : accounts db !! _ = Some ?d,
    Hlt : (_ <? 0)%float = false, Hle : (_ <=? _)%float = true |- _ =>
      pose proof (map_Forall_lookup_1 _ _ _ _ Hdb Hs) as Hs0;
      pose proof (map_Forall_lookup_1 _ _ _ _ Hdb Hd) as Hd0;
      cbn beta in Hs0, Hd0;
      apply map_Forall_insert_2;
        [ apply add_nonneg;
            [exact Hd0 | exact Hlt | exact (leb_not_nan _ _ Hle)]
        | apply map_Forall_insert_2;
            [ apply sub_nonneg; [exact Hle | exact Hlt |]
            | exact Hdb ] ]
  end.
  intros E. rewrite E in Hfin. discriminate Hfin.
Qed.

(** C2 (as amended).  From a database in which every [available_cash] is
    [>= 0], any sequence of calls of [process_transaction], executed or
    rejected, whose amounts are not infinite leaves every
    [available_cash] [>= 0]. *)
Theorem balances_stay_nonnegative (loaded_at : datetime) (calls : list Call)
    (db : Database) :
  nonnegative_balances db ->
  Forall (λ c, (schemas.cash_amount (call_request c) =? infinity)%float
               = false) calls ->
  nonnegative_balances (serve loaded_at calls db).
Proof.
  intros Hdb Hcalls. revert db Hdb.
  induction Hcalls as [| c calls Hc _ IH]; intros db Hdb; cbn [serve].
  - exact Hdb.
  - apply IH, process_transaction_nonnegative; assumption.
Qed.

Lemma test_accounts_nonnegative : nonnegative_balances test_accounts.
Proof.
  unfold nonnegative_balances, test_accounts. cbn [accounts].
  repeat (apply map_Forall_insert_2; [reflexivity|]).
  apply map_Forall_empty.
Defined.

(** The tests of the repository in a row: an executed transfer, one with
    insufficient funds, one with a negative amount. *)
Lemma balances_stay_nonnegative_witness :
  let calls :=
    [ {| call_now := 10; call_fault := None;
         call_request := payload 200 1 2 |};
      {| call_now := 20; call_fault := None;
         call_request := payload 1500 1 2 |};
      {| call_now := 30; call_fault := None;
         call_request := payload (-100) 1 2 |} ] in
  nonnegative_balances test_accounts
  ∧ nonnegative_balances (serve 0 calls test_accounts).
Proof.
  split.
  - exact test_accounts_nonnegative.
  - apply (balances_stay_nonnegative 0 _ test_accounts
             test_accounts_nonnegative).
    repeat constructor.
Defined.

(** C2, as stated, fails.  Both balances are [2^1023], finite and
    [>= 0].  Moving [2^1023] from 1 to 2 is executed and leaves 0 and
    [inf] (the sum overflows), both [>= 0].  Moving [inf] from 2 to 1 is
    executed too, since [inf >= inf], and leaves [inf - inf] in account 2,
    which is not [>= 0]. *)
Lemma nonnegative_balances_counterexample :
  let db := two_accounts 0x1p+1023 0x1p+1023 in
  let calls :=
    [ {| call_now := 10; call_fault := None;
         call_request := payload 0x1p+1023 1 2 |};
      {| call_now := 20; call_fault := None;
         call_request := payload infinity 2 1 |} ] in
  nonnegative_balances db
  ∧ accounts (serve 0 (take 1 calls) db) !! 1 = Some (account "A" 0)
  ∧ accounts (serve 0 (take 1 calls) db) !! 2
    = Some (account "B" infinity)
  ∧ ∃ a, accounts (serve 0 calls db) !! 2 = Some a
         ∧ (0 <=? models.available_cash a)%float = false.
Proof.
  split; [|split; [|split]].
  - unfold nonnegative_balances, two_accounts. cbn [accounts].
    repeat (apply map_Forall_insert_2; [reflexivity|]).
    apply map_Forall_empty.
  - reflexivity.
  - reflexivity.
  - eexists. split; reflexivity.
Qed.

(** C3.  Every call adds exactly one row to [transactions].  The row is
    committed on line 46, before the first test, with the amount and the
    two account ids of the request, [success = False] and no
    [executed_time]; whatever happens afterwards the table is the old
    one with this one key added, and when the call raises the row is
    still the one of line 46. *)
Theorem intent_row_always_persisted (loaded_at now : datetime)
    (fault : option string) (transaction : schemas.CreateTransaction)
    (db : Database) :
  let out := process_transaction loaded_at now fault transaction db in
  let id := models.autoincrement (transactions db) in
  let intent := new_transaction loaded_at transaction in
  add_and_commit intent db
    = (id, {| accounts := accounts db;
              transactions := <[id := intent]> (transactions db) |})
  ∧ transactions db !! id = None
  ∧ (models.cash_amount intent = schemas.cash_amount transaction
     ∧ models.source_account_id intent
       = schemas.source_account_id transaction
     ∧ models.destination_account_id intent
       = schemas.destination_account_id transaction
     ∧ models.success intent = false
     ∧ models.executed_time intent = None)
  ∧ (∃ row,
       transactions (committed out) = <[id := row]> (transactions db)
       ∧ (row = intent ∨ row = executed now intent)
       ∧ models.cash_amount row = schemas.cash_amount transaction
       ∧ models.source_account_id row
         = schemas.source_account_id transaction
       ∧ models.destination_account_id row
         = schemas.destination_account_id transaction)
  ∧ size (transactions (committed out)) = S (size (transactions db))
  ∧ (∀ e, response out = inl e ->
          transactions (committed out) !! id = Some intent).
Proof.
  intros out id intent.
  assert (Hrow : ∃ row,
             transactions (committed out) = <[id := row]> (transactions db)
             ∧ (row = intent ∨ row = executed now intent)).
  { subst out id intent. handler_cases;
      try (eexists; split; [reflexivity | left; reflexivity]).
    eexists. split; [apply insert_insert_eq | right; reflexivity]. }
  destruct Hrow as (row & Htx & Hrow).
  split; [reflexivity|].
  split; [apply autoincrement_fresh|].
  split; [repeat split|].
  split; [|split].
  - exists row. split; [exact Htx|]. split; [exact Hrow|].
    destruct Hrow as [-> | ->]; repeat split.
  - rewrite Htx. apply map_size_insert_None, autoincrement_fresh.
  - intros e He. subst out.
    rewrite (raised_committed _ _ _ _ _ e He). cbn [transactions].
    apply lookup_insert_eq.
Qed.

(** C4.  When a call raises, whichever of the six errors it is, the
    committed balances are those before the call and the row of line 46
    is in the table with [success = False] and no [executed_time]. *)
Theorem failure_changes_no_balance (loaded_at now : datetime)
    (fault : option string) (transaction : schemas.CreateTransaction)
    (db : Database) (e : HTTPException) :
  let out := process_transaction loaded_at now fault transaction db in
  let id := models.autoincrement (transactions db) in
  response out = inl e ->
  (e ∈ [InvalidAmount; SameAccount; SourceNotFound; DestinationNotFound;
        InsufficientFunds]
   ∨ ∃ msg, fault = Some msg ∧ e = InternalError msg)
  ∧ accounts (committed out) = accounts db
  ∧ ∃ row,
      transactions (committed out) = <[id := row]> (transactions db)
      ∧ transactions (committed out) !! id = Some row
      ∧ models.success row = false
      ∧ models.executed_time row = None.
Proof.
  intros out id He. subst out id.
  split; [exact (raised_kinds _ _ _ _ _ e He)|].
  rewrite (raised_committed _ _ _ _ _ e He). cbn [accounts transactions].
  split; [reflexivity|].
  eexists. split; [reflexivity|]. split; [apply lookup_insert_eq|].
  split; reflexivity.
Qed.

(** A commit that raises on the transfer of the first test: the balances
    stay at 1000 and 500 and row 1 stays unexecuted. *)
Lemma failure_changes_no_balance_witness :
  let out :=
    process_transaction 0 10 (Some "disk full") (payload 200 1 2)
      test_accounts in
  response out = inl (InternalError "disk full")
  ∧ (InternalError "disk full"
       ∈ [InvalidAmount; SameAccount; SourceNotFound; DestinationNotFound;
          InsufficientFunds]
     ∨ ∃ msg, Some "disk full" = Some msg
              ∧ InternalError "disk full" = InternalError msg)
  ∧ accounts (committed out) = accounts test_accounts
  ∧ ∃ row,
      transactions (committed out)
        = <[1 := row]> (transactions test_accounts)
      ∧ transactions (committed out) !! 1 = Some row
      ∧ models.success row = false
      ∧ models.executed_time row = None.
Proof.
  split; [reflexivity|].
  apply (failure_changes_no_balance 0 10 (Some "disk full")
           (payload 200 1 2) test_accounts (InternalError "disk full")
           eq_refl).
Defined.

(** C5 at amount 0: the test of line 49 is [cash_amount < 0], so a
    transfer of 0 is not rejected; it is executed. *)
Theorem zero_amount_is_not_rejected :
  let out :=
    process_transaction 0 10 None (payload 0 1 2) test_accounts in
  (0 <=? 0)%float = true
  ∧ response out ≠ inl InvalidAmount
  ∧ ∃ id row, response out = inr (id, row) ∧ models.success row = true.
Proof.
  split; [reflexivity|]. split; [discriminate|].
  eexists _, _. split; reflexivity.
Qed.

Lemma negative_not_positive (y : float) :
  (y <? 0)%float = true -> (0 <? y)%float = false.
Proof.
  intros Hneg. destruct (0 <? y)%float eqn:E; [|reflexivity].
  rewrite (positive_not_negative _ E) in Hneg. discriminate.
Qed.

(** C6 at amount 0 with equal ids.  By the specification the amount
    check comes first and fails ([0 > 0] is false), so the answer should
    be [InvalidAmount]; line 49 tests [cash_amount < 0], lets 0 through,
    and the handler answers [SameAccount], the error of the second
    check. *)
Theorem zero_amount_is_answered_same_account :
  let transaction := payload 0 1 1 in
  let out := process_transaction 0 10 None transaction test_accounts in
  (0 <=? schemas.cash_amount transaction)%float = true
  ∧ (schemas.cash_amount transaction <=? 0)%float = true
  ∧ first_failure transaction test_accounts = Some InvalidAmount
  ∧ response out = inl SameAccount
  ∧ status_code SameAccount = status_code InvalidAmount
  ∧ detail SameAccount ≠ detail InvalidAmount.
Proof. repeat split; try reflexivity. discriminate. Qed.

(** X16.  For an amount above or below zero the handler follows the
    order of the specification: the response is the error of the first
    check, in the order amount, same account, source exists, destination
    exists, sufficient funds, that fails; when none fails the call gets
    to the commit. *)
Theorem nonzero_amount_checks_in_order (loaded_at now : datetime)
    (fault : option string) (transaction : schemas.CreateTransaction)
    (db : Database) :
  let amount := schemas.cash_amount transaction in
  let out := process_transaction loaded_at now fault transaction db in
  (0 <? amount)%float = true ∨ (amount <? 0)%float = true ->
  match first_failure transaction db with
  | Some e => response out = inl e
  | None =>
    match fault with
    | Some msg => response out = inl (InternalError msg)
    | None => ∃ r, response out = inr r
    end
  end.
Proof.
  intros amount out Hsign. subst amount out.
  unfold first_failure, check_order, fails. cbn [List.find].
  destruct Hsign as [Hpos | Hneg].
  - rewrite Hpos. cbn [negb].
    pose proof (positive_not_negative _ Hpos) as Hamt.
    unfold process_transaction, add_and_commit.
    cbn [accounts transactions]. rewrite Hamt.
    repeat match goal with
      | |- context [if (?a <=? ?b)%float then _ else _] =>
          destruct (a <=? b)%float eqn:?
      | |- context [if bool_decide ?P then _ else _] =>
          destruct (bool_decide_reflect P)
      | |- context [match ?m !! ?k with Some _ => _ | None => _ end] =>
          destruct (m !! k) eqn:?
      | |- context [match ?f with Some _ => _ | None => _ end] =>
          is_var f; destruct f
      end; cbn; try reflexivity.
    eexists. reflexivity.
  - rewrite (negative_not_positive _ Hneg). cbn.
    unfold process_transaction, add_and_commit. rewrite Hneg. reflexivity.
Qed.

(** The two examples of the specification, on the accounts of the tests:
    a negative amount with equal ids, and two ids that name no account. *)
Lemma nonzero_amount_checks_in_order_witness :
  ((-100 <? 0)%float = true
   ∧ response (process_transaction 0 10 None (payload (-100) 1 1)
                 test_accounts) = inl InvalidAmount)
  ∧ ((0 <? 100)%float = true
     ∧ response (process_transaction 0 10 None (payload 100 98 99)
                   test_accounts) = inl SourceNotFound).
Proof.
  split; (split; [reflexivity|]).
  - apply (nonzero_amount_checks_in_order 0 10 None (payload (-100) 1 1)
             test_accounts). right. reflexivity.
  - apply (nonzero_amount_checks_in_order 0 10 None (payload 100 98 99)
             test_accounts). left. reflexivity.
Defined.

(** Whatever the clock shows during the call, the row gets the column
    default of [registered_time]. *)
Lemma registered_time_is_the_default (loaded_at now : datetime)
    (fault : option string) (transaction : schemas.CreateTransaction)
    (db : Database) :
  let out := process_transaction loaded_at now fault transaction db in
  ∃ row,
    transactions (committed out) !! models.autoincrement (transactions db)
      = Some row
    ∧ models.registered_time row = Some loaded_at.
Proof.
  cbn zeta. handler_cases;
    (eexists; split; [apply lookup_insert_eq | reflexivity]).
Qed.

(** C7 at two requests served at the times 10 and 20 by a process that
    loaded [app.models] at time 0: both rows carry [registered_time] 0,
    while the first one was executed at 10 and the second at 20. *)
Theorem registered_time_is_load_time :
  let db1 :=
    committed (process_transaction 0 10 None (payload 200 1 2)
                 test_accounts) in
  let db2 :=
    committed (process_transaction 0 20 None (payload 200 1 2) db1) in
  (models.registered_time <$> transactions db2 !! 1) = Some (Some 0)
  ∧ (models.registered_time <$> transactions db2 !! 2) = Some (Some 0)
  ∧ (models.executed_time <$> transactions db2 !! 1) = Some (Some 10)
  ∧ (models.executed_time <$> transactions db2 !! 2) = Some (Some 20).
Proof. repeat split; reflexivity. Qed.

(** C8 (as amended).  The row locks are taken in the order of the
    request: the source row first, then the destination row, as far as
    the call gets; a call that passes the amount and same-account tests
    and finds both rows locks the source and then the destination,
    whichever id is the smaller. *)
Theorem locks_follow_request_order (loaded_at now : datetime)
    (fault : option string) (transaction : schemas.CreateTransaction)
    (db : Database) :
  let amount := schemas.cash_amount transaction in
  let src := schemas.source_account_id transaction in
  let dst := schemas.destination_account_id transaction in
  let out := process_transaction loaded_at now fault transaction db in
  for_update out = locks_in_request_order transaction db
  ∧ (∀ i j, for_update out = [i; j] -> i = src ∧ j = dst)
  ∧ ((amount <? 0)%float = false -> src ≠ dst ->
     is_Some (accounts db !! src) -> is_Some (accounts db !! dst) ->
     for_update out = [src; dst]).
Proof.
  cbn zeta. split; [|split].
  - unfold locks_in_request_order. handler_cases; reflexivity.
  - intros i j. handler_cases; intros [= <- <-]; split; reflexivity.
  - intros Hamt Hne [s Hs] [d Hd].
    unfold process_transaction, add_and_commit. cbn [accounts].
    rewrite Hamt, Hs, Hd.
    rewrite bool_decide_eq_false_2 by exact Hne.
    destruct (_ <=? _)%float; [destruct fault|]; reflexivity.
Qed.

(** C8, as stated, fails: a transfer from account 2 to account 1 locks
    row 2 first and row 1 second. *)
Lemma ascending_lock_order_counterexample :
  let out :=
    process_transaction 0 10 None (payload 100 2 1) test_accounts in
  for_update out = [2; 1] ∧ 1 < 2.
Proof. split; [reflexivity | lia]. Qed.

(** C9.  An amount that is zero, between two distinct existing accounts,
    with a source balance [>= 0] and a commit that goes through: the
    transfer is executed, the row has [success = True] and
    [executed_time] set, and both balances are the same amounts as
    before. *)
Theorem zero_transfer_is_identity (loaded_at now : datetime)
    (transaction : schemas.CreateTransaction) (db : Database)
    (source_account destination_account : models.AccountModel) :
  let amount := schemas.cash_amount transaction in
  let src := schemas.source_account_id transaction in
  let dst := schemas.destination_account_id transaction in
  let out := process_transaction loaded_at now None transaction db in
  (amount =? 0)%float = true ->
  src ≠ dst ->
  accounts db !! src = Some source_account ->
  accounts db !! dst = Some destination_account ->
  (0 <=? models.available_cash source_account)%float = true ->
  ∃ id row source_account' destination_account',
    response out = inr (id, row)
    ∧ models.success row = true
    ∧ models.executed_time row = Some now
    ∧ transactions (committed out) !! id = Some row
    ∧ accounts (committed out) !! src = Some source_account'
    ∧ same_amount (models.available_cash source_account')
        (models.available_cash source_account)
    ∧ accounts (committed out) !! dst = Some destination_account'
    ∧ same_amount (models.available_cash destination_account')
        (models.available_cash destination_account)
    ∧ ∀ k, k ≠ src -> k ≠ dst ->
        accounts (committed out) !! k = accounts db !! k.
Proof.
  intros amount src dst out Hzero Hne Hs Hd Hle.
  subst out.
  rewrite (executes loaded_at now None transaction db _ _
             (zero_not_ltb _ Hzero) Hne Hs Hd
             (zero_leb _ _ Hzero Hle) eq_refl).
  cbn [response committed accounts transactions].
  eexists _, _, _, _. repeat split.
  - apply lookup_insert_eq.
  - rewrite lookup_insert_ne by (intros E; apply Hne; symmetry; exact E).
    apply lookup_insert_eq.
  - apply sub_zero, Hzero.
  - apply lookup_insert_eq.
  - apply add_zero, Hzero.
  - intros k Hks Hkd.
    rewrite !lookup_insert_ne by (intros E; symmetry in E; contradiction).
    reflexivity.
Qed.

Lemma zero_transfer_is_identity_witness :
  let out :=
    process_transaction 0 10 None (payload 0 1 2) test_accounts in
  ((0 =? 0)%float = true ∧ (0 <=? 1000)%float = true)
  ∧ ∃ id row source_account' destination_account',
    response out = inr (id, row)
    ∧ models.success row = true
    ∧ models.executed_time row = Some 10
    ∧ transactions (committed out) !! id = Some row
    ∧ accounts (committed out) !! 1 = Some source_account'
    ∧ same_amount (models.available_cash source_account') 1000
    ∧ accounts (committed out) !! 2 = Some destination_account'
    ∧ same_amount (models.available_cash destination_account') 500
    ∧ ∀ k, k ≠ 1 -> k ≠ 2 ->
        accounts (committed out) !! k = accounts test_accounts !! k.
Proof.
  split; [split; reflexivity|].
  apply (zero_transfer_is_identity 0 10 (payload 0 1 2) test_accounts
           (account "Alice" 1000) (account "Bob" 500));
    [reflexivity | discriminate | reflexivity | reflexivity | reflexivity].
Defined.

(** C10.  [create_account] stores the balance of the request as it is,
    under a new key; a request with a negative balance, on the accounts
    of the tests, commits an account whose balance is negative, so that
    the balances are no longer all [>= 0]. *)
Theorem create_account_does_not_validate :
  (∀ (account : schemas.CreateAccount) (db : Database),
     let out := create_account account db in
     let id := models.autoincrement (accounts db) in
     response out = inr account
     ∧ accounts db !! id = None
     ∧ accounts (committed out)
       = <[id := {| models.name := schemas.name account;
                    models.available_cash :=
                      schemas.available_cash account |}]> (accounts db))
  ∧ (let request :=
       {| schemas.name := "Dave"; schemas.available_cash := (-50)%float |} in
     let out := create_account request test_accounts in
     (schemas.available_cash request <? 0)%float = true
     ∧ nonnegative_balances test_accounts
     ∧ ∃ id a, accounts (committed out) !! id = Some a
               ∧ (models.available_cash a <? 0)%float = true
               ∧ (0 <=? models.available_cash a)%float = false).
Proof.
  split.
  - intros account db out id. split; [reflexivity|].
    split; [apply autoincrement_fresh | reflexivity].
  - split; [reflexivity|]. split; [exact test_accounts_nonnegative|].
    exists 4. eexists. repeat split; reflexivity.
Qed.

(** * More of binary64 *)
Section Binary64_order.
Open Scope float_scope.

Lemma SFcompare_Lt_Gt (x y : spec_float) :
  SFcompare x y = Some Lt -> SFcompare y x = Some Gt.
Proof.
  destruct x as [sx|[|]| |[|] mx ex], y as [sy|[|]| |[|] my ey];
    cbn; try discriminate; try reflexivity;
    rewrite (Z.compare_antisym ex ey);
    change (Pos.compare_cont Eq my mx) with (my ?= mx)%positive;
    change (Pos.compare_cont Eq mx my) with (mx ?= my)%positive;
    rewrite (Pos.compare_antisym mx my);
    destruct (ex ?= ey)%Z; cbn; try discriminate; try reflexivity;
    destruct (mx ?= my)%positive; cbn; try discriminate; reflexivity.
Qed.

(** [x < y] excludes [x >= y]. *)
Lemma ltb_not_leb (x y : float) : (x <? y) = true -> (y <=? x) = false.
Proof.
  rewrite FloatAxioms.ltb_spec, FloatAxioms.leb_spec. unfold SFltb, SFleb.
  destruct (SFcompare (Prim2SF x) (Prim2SF y)) as [[| |]|] eqn:E;
    try discriminate.
  intros _. rewrite (SFcompare_Lt_Gt _ _ E). reflexivity.
Qed.

(** NaN is the float that is not [==] to itself; it is below nothing. *)
Lemma nan_not_leb (x y : float) : (x =? x) = false -> (x <=? y) = false.
Proof.
  intros Hnan. destruct (x <=? y) eqn:E; [|reflexivity].
  rewrite (leb_not_nan _ _ E) in Hnan. discriminate.
Qed.

Lemma nan_not_ltb (x y : float) : (x =? x) = false -> (x <? y) = false.
Proof.
  rewrite FloatAxioms.eqb_spec, FloatAxioms.ltb_spec.
  destruct (Prim2SF x) as [s|[|]| |[|] m e]; try reflexivity; intros H;
    rewrite SFeqb_refl in H by discriminate; discriminate.
Qed.

(** A finite balance that is [>= 0], minus itself, is [0.0]. *)
Lemma sub_diag (x : float) :
  (0 <=? x) = true -> (x =? infinity) = false -> x - x = 0.
Proof.
  rewrite FloatAxioms.leb_spec, FloatAxioms.eqb_spec. intros Hpos Hinf.
  apply Prim2SF_inj. rewrite FloatAxioms.sub_spec.
  destruct (Prim2SF x) as [[|]|[|]| |s m e]; try discriminate;
    try reflexivity.
  cbn [SF64sub SFsub]. rewrite Z.sub_diag. reflexivity.
Qed.

End Binary64_order.

(** * More of the transfer endpoint *)

(** X1.  A call is answered with the transaction record exactly when the
    amount is not below zero, the two ids differ, both name an account,
    the source balance is [>=] the amount and the commit goes through. *)
Theorem executes_iff (loaded_at now : datetime) (fault : option string)
    (transaction : schemas.CreateTransaction) (db : Database) :
  let amount := schemas.cash_amount transaction in
  let src := schemas.source_account_id transaction in
  let dst := schemas.destination_account_id transaction in
  let out := process_transaction loaded_at now fault transaction db in
  (∃ r, response out = inr r)
  ↔ (amount <? 0)%float = false
    ∧ src ≠ dst
    ∧ (∃ source_account,
         accounts db !! src = Some source_account
         ∧ (amount <=? models.available_cash source_account)%float = true)
    ∧ is_Some (accounts db !! dst)
    ∧ fault = None.
Proof.
  cbn zeta. split.
  - handler_cases; intros [r [=]]. eauto 10.
  - intros (Hamt & Hne & (s & Hs & Hle) & [d Hd] & ->).
    rewrite (executes loaded_at now None transaction db s d
               Hamt Hne Hs Hd Hle eq_refl).
    eexists. reflexivity.
Qed.

(** X2.  The bound of line 78 is inclusive: an amount equal to the whole
    balance of the source, finite and [>= 0], is executed and leaves the
    source with [0.0]. *)
Theorem whole_balance_can_be_moved (loaded_at now : datetime)
    (transaction : schemas.CreateTransaction) (db : Database)
    (source_account destination_account : models.AccountModel) :
  let amount := schemas.cash_amount transaction in
  let src := schemas.source_account_id transaction in
  let dst := schemas.destination_account_id transaction in
  let out := process_transaction loaded_at now None transaction db in
  src ≠ dst ->
  accounts db !! src = Some source_account ->
  accounts db !! dst = Some destination_account ->
  amount = models.available_cash source_account ->
  (0 <=? amount)%float = true ->
  (amount =? infinity)%float = false ->
  (∃ r, response out = inr r)
  ∧ accounts (committed out) !! src
    = Some {| models.name := models.name source_account;
              models.available_cash := 0 |}.
Proof.
  intros amount src dst out Hne Hs Hd Heq Hpos Hfin.
  assert (Hlt : (amount <? 0)%float = false).
  { destruct (amount <? 0)%float eqn:E; [|reflexivity].
    rewrite (ltb_not_leb _ _ E) in Hpos. discriminate. }
  assert (Hle : (amount <=? models.available_cash source_account)%float
                = true).
  { rewrite <- Heq. rewrite FloatAxioms.leb_spec.
    rewrite FloatAxioms.leb_spec in Hpos.
    destruct (Prim2SF amount) as [[|]|[|]| |[|] m e]; try discriminate;
      try reflexivity.
    unfold SFleb, SFcompare. rewrite Z.compare_refl.
    change (Pos.compare_cont Eq m m) with (m ?= m)%positive.
    rewrite Pos.compare_refl. reflexivity. }
  subst out.
  rewrite (executes loaded_at now None transaction db _ _
             Hlt Hne Hs Hd Hle eq_refl).
  cbn [response committed accounts]. split; [eexists; reflexivity|].
  rewrite lookup_insert_ne by (intros E; apply Hne; symmetry; exact E).
  rewrite lookup_insert_eq. unfold debit. fold amount.
  rewrite <- Heq, (sub_diag amount Hpos Hfin). reflexivity.
Qed.

Lemma whole_balance_can_be_moved_witness :
  let out :=
    process_transaction 0 10 None (payload 1000 1 2) test_accounts in
  ((0 <=? 1000)%float = true ∧ (1000 =? infinity)%float = false)
  ∧ (∃ r, response out = inr r)
  ∧ accounts (committed out) !! 1 = Some (account "Alice" 0).
Proof.
  split; [split; reflexivity|].
  apply (whole_balance_can_be_moved 0 10 (payload 1000 1 2) test_accounts
           (account "Alice" 1000) (account "Bob" 500));
    [discriminate | reflexivity..].
Defined.

(** X3.  No overdraft: when the balance of the source is below the
    amount, or the amount is NaN, the call is answered with an error and
    no balance changes. *)
Theorem no_overdraft (loaded_at now : datetime) (fault : option string)
    (transaction : schemas.CreateTransaction) (db : Database)
    (source_account : models.AccountModel) :
  let amount := schemas.cash_amount transaction in
  let src := schemas.source_account_id transaction in
  let out := process_transaction loaded_at now fault transaction db in
  accounts db !! src = Some source_account ->
  (models.available_cash source_account <? amount)%float = true
  ∨ (amount =? amount)%float = false ->
  (∃ e, response out = inl e ∧ status_code e ≠ 500)
  ∧ accounts (committed out) = accounts db.
Proof.
  intros amount src out Hs Hbelow.
  assert (Hle : (amount <=? models.available_cash source_account)%float
                = false).
  { destruct Hbelow as [H | H];
      [exact (ltb_not_leb _ _ H) | exact (nan_not_leb _ _ H)]. }
  subst out amount src. revert Hs Hle. handler_cases; intros Hs Hle;
    try (split; [eexists; split; [reflexivity | discriminate]
                | reflexivity]);
    congruence.
Qed.

Lemma no_overdraft_witness :
  let out :=
    process_transaction 0 10 None (payload 1500 1 2) test_accounts in
  (1000 <? 1500)%float = true
  ∧ (∃ e, response out = inl e ∧ status_code e ≠ 500)
  ∧ accounts (committed out) = accounts test_accounts.
Proof.
  split; [reflexivity|].
  apply (no_overdraft 0 10 None (payload 1500 1 2) test_accounts
           (account "Alice" 1000)); [reflexivity | left; reflexivity].
Defined.

(** What one call does to the two tables. *)
Lemma process_transaction_tables (loaded_at now : datetime)
    (fault : option string) (transaction : schemas.CreateTransaction)
    (db : Database) :
  let out := process_transaction loaded_at now fault transaction db in
  let id := models.autoincrement (transactions db) in
  let src := schemas.source_account_id transaction in
  let dst := schemas.destination_account_id transaction in
  (∃ row, transactions (committed out) = <[id := row]> (transactions db)
          ∧ (models.success row = true
             ↔ is_Some (models.executed_time row)))
  ∧ (accounts (committed out) = accounts db
     ∨ ∃ s d, accounts db !! src = Some s ∧ accounts db !! dst = Some d
              ∧ for_update out = [src; dst]
              ∧ accounts (committed out)
                = <[dst := credit (schemas.cash_amount transaction) d]>
                    (<[src := debit (schemas.cash_amount transaction) s]>
                       (accounts db))).
Proof.
  cbn zeta. split.
  - handler_cases;
      try (eexists; split; [reflexivity|]; cbn;
           split; [discriminate | intros [? [=]]]).
    eexists. split; [apply insert_insert_eq|]. cbn.
    split; [eauto | reflexivity].
  - handler_cases; try (left; reflexivity).
    right. eexists _, _. repeat split; reflexivity.
Qed.

(** The next key after a new row is the next integer. *)
Lemma autoincrement_insert {A} (table : gmap Z A) (x : A) :
  models.autoincrement (<[models.autoincrement table := x]> table)
  = models.autoincrement table + 1.
Proof.
  unfold models.autoincrement at 1 3.
  rewrite map_fold_insert_L.
  - fold (models.autoincrement table).
    pose proof (autoincrement_above table) as Habove.
    unfold models.autoincrement in *. 
    assert (0 <= map_fold (λ k (_ : A) acc, Z.max k acc) 0 table).
    { apply (map_fold_weak_ind (λ r (_ : gmap Z A), 0 <= r)); [lia|].
      intros; lia. }
    lia.
  - intros. lia.
  - apply autoincrement_fresh.
Qed.

(** X4.  No sequence of calls creates, deletes or renames an account:
    the ids in [accounts] stay the same and so does the name under each
    id. *)
Theorem serve_keeps_accounts (loaded_at : datetime) (calls : list Call)
    (db : Database) :
  dom (accounts (serve loaded_at calls db)) = dom (accounts db)
  ∧ ∀ k a, accounts db !! k = Some a ->
      ∃ a', accounts (serve loaded_at calls db) !! k = Some a'
            ∧ models.name a' = models.name a.
Proof.
  revert db. induction calls as [| c calls IH]; intros db; cbn [serve].
  - split; [reflexivity | eauto].
  - destruct (IH (committed (process_transaction loaded_at (call_now c)
                               (call_fault c) (call_request c) db)))
      as [IHdom IHname].
    destruct (process_transaction_tables loaded_at (call_now c)
                (call_fault c) (call_request c) db)
      as [_ [Hacc | (s & d & Hs & Hd & _ & Hacc)]]; rewrite Hacc in *.
    + split; assumption.
    + split.
      * rewrite IHdom, !dom_insert_L.
        apply elem_of_dom_2 in Hs, Hd.
        rewrite (subseteq_union_1_L {[_]} (dom (accounts db)))
          by (apply singleton_subseteq_l; exact Hs).
        apply subseteq_union_1_L, singleton_subseteq_l. exact Hd.
      * intros k a Hk.
        set (src := schemas.source_account_id (call_request c)) in *.
        set (dst := schemas.destination_account_id (call_request c)) in *.
        destruct (decide (k = dst)) as [-> | Hkd].
        { destruct (IHname dst _ (lookup_insert_eq _ _ _))
            as (a' & Ha' & Hn).
          exists a'. split; [exact Ha'|]. rewrite Hn. cbn. congruence. }
        destruct (decide (k = src)) as [-> | Hks].
        { destruct (IHname src (debit (schemas.cash_amount (call_request c)) s))
            as (a' & Ha' & Hn).
          - rewrite lookup_insert_ne by done. apply lookup_insert_eq.
          - exists a'. split; [exact Ha'|]. rewrite Hn. cbn. congruence. }
        apply IHname. rewrite !lookup_insert_ne by done. exact Hk.
Qed.

(** One call keeps the rows that are in [transactions]. *)
Lemma process_transaction_keeps_rows (loaded_at now : datetime)
    (fault : option string) (transaction : schemas.CreateTransaction)
    (db : Database) (k : Z) (row : models.TransactionModel) :
  transactions db !! k = Some row ->
  transactions
    (committed (process_transaction loaded_at now fault transaction db))
    !! k = Some row.
Proof.
  intros Hk.
  destruct (process_transaction_tables loaded_at now fault transaction db)
    as [(r & -> & _) _].
  rewrite lookup_insert_ne; [exact Hk|].
  intros E. rewrite <- E, autoincrement_fresh in Hk. discriminate.
Qed.

(** X5.  The table of transactions is append-only: a row that is in it
    stays in it, as it is, through any sequence of calls. *)
Theorem serve_keeps_rows (loaded_at : datetime) (calls : list Call)
    (db : Database) (k : Z) (row : models.TransactionModel) :
  transactions db !! k = Some row ->
  transactions (serve loaded_at calls db) !! k = Some row.
Proof.
  revert db. induction calls as [| c calls IH]; intros db Hk; cbn [serve].
  - exact Hk.
  - apply IH, process_transaction_keeps_rows, Hk.
Qed.

(** X6.  Each call, executed or rejected, adds one row under the next
    id: after [n] calls the table has [n] more rows and the next id is
    [n] higher. *)
Theorem serve_adds_one_row_per_call (loaded_at : datetime)
    (calls : list Call) (db : Database) :
  size (transactions (serve loaded_at calls db))
  = (size (transactions db) + length calls)%nat
  ∧ models.autoincrement (transactions (serve loaded_at calls db))
    = models.autoincrement (transactions db) + Z.of_nat (length calls).
Proof.
  revert db. induction calls as [| c calls IH]; intros db; cbn [serve].
  - cbn. split; lia.
  - destruct (IH (committed (process_transaction loaded_at (call_now c)
                               (call_fault c) (call_request c) db)))
      as [IHsize IHid].
    destruct (process_transaction_tables loaded_at (call_now c)
                (call_fault c) (call_request c) db) as [(r & Htx & _) _].
    rewrite Htx in IHsize, IHid.
    rewrite map_size_insert_None in IHsize by apply autoincrement_fresh.
    rewrite autoincrement_insert in IHid.
    cbn [length]. split; lia.
Qed.

(** X7.  In every row written by the handler [success] is set exactly
    when [executed_time] is; a table with this property keeps it through
    any sequence of calls. *)
Theorem serve_keeps_executed_rows_marked (loaded_at : datetime)
    (calls : list Call) (db : Database) :
  executed_rows_marked db ->
  executed_rows_marked (serve loaded_at calls db).
Proof.
  revert db. induction calls as [| c calls IH]; intros db Hdb; cbn [serve].
  - exact Hdb.
  - apply IH. unfold executed_rows_marked in *.
    destruct (process_transaction_tables loaded_at (call_now c)
                (call_fault c) (call_request c) db) as [(r & -> & Hr) _].
    apply map_Forall_insert_2; assumption.
Qed.

Lemma serve_keeps_executed_rows_marked_witness :
  let calls :=
    [ {| call_now := 10; call_fault := None;
         call_request := payload 200 1 2 |};
      {| call_now := 20; call_fault := Some "disk full";
         call_request := payload 100 2 3 |};
      {| call_now := 30; call_fault := None;
         call_request := payload 1500 1 2 |} ] in
  executed_rows_marked test_accounts
  ∧ executed_rows_marked (serve 0 calls test_accounts).
Proof.
  assert (H : executed_rows_marked test_accounts)
    by apply map_Forall_empty.
  split; [exact H|].
  apply (serve_keeps_executed_rows_marked 0 _ test_accounts H).
Defined.

Lemma serve_keeps_rows_witness :
  let db1 :=
    committed (process_transaction 0 10 None (payload (-100) 1 2)
                 test_accounts) in
  let calls :=
    [ {| call_now := 20; call_fault := None;
         call_request := payload 200 1 2 |};
      {| call_now := 30; call_fault := None;
         call_request := payload (-100) 1 2 |} ] in
  transactions db1 !! 1 = Some (new_transaction 0 (payload (-100) 1 2))
  ∧ transactions (serve 0 calls db1) !! 1
    = Some (new_transaction 0 (payload (-100) 1 2)).
Proof.
  split; [reflexivity|].
  apply (serve_keeps_rows 0 _ _ 1 (new_transaction 0 (payload (-100) 1 2))).
  reflexivity.
Defined.

(** X8.  Balances change under a row lock only: the locked rows exist,
    no row is locked twice, and every account that is not locked has the
    committed row it had before the call. *)
Theorem only_locked_rows_change (loaded_at now : datetime)
    (fault : option string) (transaction : schemas.CreateTransaction)
    (db : Database) :
  let out := process_transaction loaded_at now fault transaction db in
  NoDup (for_update out)
  ∧ (∀ k, k ∈ for_update out -> is_Some (accounts db !! k))
  ∧ (∀ k, k ∉ for_update out ->
          accounts (committed out) !! k = accounts db !! k).
Proof.
  cbn zeta. split; [|split].
  - handler_cases; repeat constructor;
      rewrite ?list_elem_of_singleton;
      first [apply not_elem_of_nil | assumption].
  - intros k. handler_cases; intros Hk;
      repeat (apply elem_of_cons in Hk as [-> | Hk]; [eauto|]);
      apply elem_of_nil in Hk; contradiction.
  - intros k. handler_cases; intros Hk; try reflexivity.
    rewrite !lookup_insert_ne; [reflexivity | |];
      intros E; apply Hk; rewrite <- E;
      repeat first [apply list_elem_of_here | apply list_elem_of_further].
Qed.

(** * The account endpoints *)

(** X9.  [create_account] overwrites nothing: every account that is in
    the table is still there with the same row, the table has one row
    more, the transactions are untouched and no row lock is taken. *)
Theorem create_account_keeps_accounts (account : schemas.CreateAccount)
    (db : Database) :
  let out := create_account account db in
  (∀ k a, accounts db !! k = Some a ->
          accounts (committed out) !! k = Some a)
  ∧ size (accounts (committed out)) = S (size (accounts db))
  ∧ transactions (committed out) = transactions db
  ∧ for_update out = [].
Proof.
  cbn zeta. unfold create_account. cbn. split; [|split; [|split]];
    try reflexivity.
  - intros k a Hk. rewrite lookup_insert_ne; [exact Hk|].
    intros E. rewrite <- E, autoincrement_fresh in Hk. discriminate.
  - apply map_size_insert_None, autoincrement_fresh.
Qed.

(** X10.  An account that was created can be read back: under the id it
    was given, [retrieve_account] answers the name and the balance of the
    request, and the ids that answered 200 before answer the same. *)
Theorem create_then_retrieve (account : schemas.CreateAccount)
    (db : Database) :
  let db' := committed (create_account account db) in
  let id := models.autoincrement (accounts db) in
  retrieve_account id db'
  = inr (id, {| models.name := schemas.name account;
                models.available_cash := schemas.available_cash account |})
  ∧ (∃ e, retrieve_account id db = inl e ∧ status_code e = 404)
  ∧ ∀ k r, retrieve_account k db = inr r -> retrieve_account k db' = inr r.
Proof.
  cbn zeta. unfold retrieve_account, create_account. cbn.
  split; [|split].
  - rewrite lookup_insert_eq. reflexivity.
  - rewrite autoincrement_fresh. eexists. split; reflexivity.
  - intros k r. destruct (accounts db !! k) eqn:Hk; [|discriminate].
    intros [= <-]. rewrite lookup_insert_ne, Hk; [reflexivity|].
    intros E. rewrite <- E, autoincrement_fresh in Hk. discriminate.
Qed.

(** X11.  The list endpoint and the point endpoint agree: [(id, row)] is
    in the answer of [retrieve_accounts] exactly when [retrieve_account
    id] answers it; an id that is in no entry is answered 404; no id is
    listed twice. *)
Theorem retrieve_accounts_agrees (db : Database) :
  (∀ id a, (id, a) ∈ retrieve_accounts db
           ↔ retrieve_account id db = inr (id, a))
  ∧ (∀ id, id ∉ (retrieve_accounts db).*1
           ↔ ∃ e, retrieve_account id db = inl e ∧ status_code e = 404)
  ∧ NoDup (retrieve_accounts db).*1
  ∧ length (retrieve_accounts db) = size (accounts db).
Proof.
  unfold retrieve_accounts, retrieve_account. split; [|split; [|split]].
  - intros id a. rewrite elem_of_map_to_list.
    destruct (accounts db !! id); split; intros [=]; subst; reflexivity.
  - intros id. destruct (accounts db !! id) as [a|] eqn:Hid; split.
    + intros Hn. exfalso. apply Hn, list_elem_of_fmap.
      exists (id, a). split; [reflexivity|].
      apply elem_of_map_to_list, Hid.
    + intros (e & [=] & _).
    + intros _. eexists. split; reflexivity.
    + intros _ Hin. apply list_elem_of_fmap in Hin as ([k a] & -> & Hin).
      apply elem_of_map_to_list in Hin. cbn in *. congruence.
  - apply NoDup_fst_map_to_list.
  - apply length_map_to_list.
Qed.

(** X12.  What [POST /transactions] answers is what [GET /transactions]
    lists: after a call the list is the old one with one entry more, the
    row of this call with the amount and the ids of the request, and a
    transaction record in the response is that entry. *)
Theorem retrieve_transactions_after_call (loaded_at now : datetime)
    (fault : option string) (transaction : schemas.CreateTransaction)
    (db : Database) :
  let out := process_transaction loaded_at now fault transaction db in
  let id := models.autoincrement (transactions db) in
  ∃ row,
    retrieve_transactions (committed out)
      ≡ₚ (id, row) :: retrieve_transactions db
    ∧ models.cash_amount row = schemas.cash_amount transaction
    ∧ models.source_account_id row = schemas.source_account_id transaction
    ∧ models.destination_account_id row
      = schemas.destination_account_id transaction
    ∧ (∀ r, response out = inr r -> r = (id, row))
    ∧ (∀ e, response out = inl e -> models.success row = false).
Proof.
  cbn zeta. unfold retrieve_transactions.
  handler_cases;
    (eexists; split;
     [ rewrite ?insert_insert_eq;
       apply map_to_list_insert, autoincrement_fresh
     | repeat split; try reflexivity;
       first [intros ? [= <-]; reflexivity | intros ? [=]] ]).
Qed.

(** X13.  What the status of an error tells the client: it is 400, 404
    or 500; 404 only when the amount and same-account tests passed and
    one of the two ids names no account; 500 only when every test passed
    and the commit raised; 400 only for an amount below zero, or equal
    ids, or a source balance that is not [>=] the amount, each after the
    tests before it passed. *)
Theorem error_status_codes (loaded_at now : datetime)
    (fault : option string) (transaction : schemas.CreateTransaction)
    (db : Database) (e : HTTPException) :
  let amount := schemas.cash_amount transaction in
  let src := schemas.source_account_id transaction in
  let dst := schemas.destination_account_id transaction in
  let out := process_transaction loaded_at now fault transaction db in
  response out = inl e ->
  (status_code e = 400
   ∧ ((amount <? 0)%float = true
      ∨ ((amount <? 0)%float = false ∧ src = dst)
      ∨ ((amount <? 0)%float = false ∧ src ≠ dst
         ∧ is_Some (accounts db !! dst)
         ∧ ∃ s, accounts db !! src = Some s
                ∧ (amount <=? models.available_cash s)%float = false)))
  ∨ (status_code e = 404
     ∧ (amount <? 0)%float = false ∧ src ≠ dst
     ∧ (accounts db !! src = None
        ∨ (is_Some (accounts db !! src) ∧ accounts db !! dst = None)))
  ∨ (status_code e = 500
     ∧ (amount <? 0)%float = false ∧ src ≠ dst
     ∧ is_Some (accounts db !! dst)
     ∧ (∃ s, accounts db !! src = Some s
             ∧ (amount <=? models.available_cash s)%float = true)
     ∧ ∃ msg, fault = Some msg ∧ e = InternalError msg).
Proof.
  cbn zeta. unfold is_Some. handler_cases; intros [= <-]; cbn;
    first
      [ left; split; [reflexivity|];
        first [ left; reflexivity
              | right; left; split; [reflexivity | assumption]
              | right; right; repeat split; solve [eauto] ]
      | right; left; split; [reflexivity|];
        split; [reflexivity|]; split; [assumption|];
        first [left; reflexivity | right; split; solve [eauto]]
      | right; right; split; [reflexivity|]; repeat split; solve [eauto] ].
Qed.

Lemma error_status_codes_witness :
  let out :=
    process_transaction 0 10 (Some "disk full") (payload 200 1 2)
      test_accounts in
  response out = inl (InternalError "disk full")
  ∧ status_code (InternalError "disk full") = 500
  ∧ ((status_code (InternalError "disk full") = 400
      ∧ ((200 <? 0)%float = true
         ∨ ((200 <? 0)%float = false ∧ 1 = 2)
         ∨ ((200 <? 0)%float = false ∧ 1 ≠ 2
            ∧ is_Some (accounts test_accounts !! 2)
            ∧ ∃ s, accounts test_accounts !! 1 = Some s
                   ∧ (200 <=? models.available_cash s)%float = false)))
     ∨ (status_code (InternalError "disk full") = 404
        ∧ (200 <? 0)%float = false ∧ 1 ≠ 2
        ∧ (accounts test_accounts !! 1 = None
           ∨ (is_Some (accounts test_accounts !! 1)
              ∧ accounts test_accounts !! 2 = None)))
     ∨ (status_code (InternalError "disk full") = 500
        ∧ (200 <? 0)%float = false ∧ 1 ≠ 2
        ∧ is_Some (accounts test_accounts !! 2)
        ∧ (∃ s, accounts test_accounts !! 1 = Some s
                ∧ (200 <=? models.available_cash s)%float = true)
        ∧ ∃ msg, Some "disk full" = Some msg
                 ∧ InternalError "disk full" = InternalError msg)).
Proof.
  split; [reflexivity|]. split; [reflexivity|].
  apply (error_status_codes 0 10 (Some "disk full") (payload 200 1 2)
           test_accounts (InternalError "disk full") eq_refl).
Defined.

(** X14.  Money given to an account at its creation can be moved right
    away: a transfer from the new id to an account that exists, of an
    amount that is not below zero and not above the opening balance, is
    executed when its commit goes through. *)
Theorem create_then_transfer (account : schemas.CreateAccount)
    (loaded_at now : datetime) (amount : float) (dst : Z)
    (destination_account : models.AccountModel) (db : Database) :
  let db' := committed (create_account account db) in
  let id := models.autoincrement (accounts db) in
  let out := process_transaction loaded_at now None
               {| schemas.cash_amount := amount;
                  schemas.source_account_id := id;
                  schemas.destination_account_id := dst |} db' in
  accounts db !! dst = Some destination_account ->
  (amount <? 0)%float = false ->
  (amount <=? schemas.available_cash account)%float = true ->
  (∃ r, response out = inr r)
  ∧ (models.available_cash <$> accounts (committed out) !! id)
    = Some (schemas.available_cash account - amount)%float
  ∧ (models.available_cash <$> accounts (committed out) !! dst)
    = Some (models.available_cash destination_account + amount)%float.
Proof.
  intros db' id out Hd Hamt Hle.
  assert (Hne : id ≠ dst).
  { intros E. subst id. rewrite <- E, autoincrement_fresh in Hd.
    discriminate. }
  assert (Hs : accounts db' !! id
               = Some {| models.name := schemas.name account;
                         models.available_cash :=
                           schemas.available_cash account |})
    by apply lookup_insert_eq.
  assert (Hd' : accounts db' !! dst = Some destination_account).
  { subst db'. cbn. rewrite lookup_insert_ne by exact Hne. exact Hd. }
  subst out.
  rewrite (executes loaded_at now None
             {| schemas.cash_amount := amount;
                schemas.source_account_id := id;
                schemas.destination_account_id := dst |}
             db' _ _ Hamt Hne Hs Hd' Hle eq_refl).
  cbn [response committed accounts
       schemas.cash_amount schemas.source_account_id
       schemas.destination_account_id].
  split; [eexists; reflexivity|]. split.
  - rewrite lookup_insert_ne by (intros E; apply Hne; symmetry; exact E).
    rewrite lookup_insert_eq. reflexivity.
  - rewrite lookup_insert_eq. reflexivity.
Qed.

Lemma create_then_transfer_witness :
  let request :=
    {| schemas.name := "Dave"; schemas.available_cash := 50%float |} in
  let db' := committed (create_account request test_accounts) in
  let out := process_transaction 0 10 None (payload 20 4 1) db' in
  (accounts test_accounts !! 1 = Some (account "Alice" 1000)
   ∧ (20 <? 0)%float = false ∧ (20 <=? 50)%float = true)
  ∧ (∃ r, response out = inr r)
  ∧ (models.available_cash <$> accounts (committed out) !! 4)
    = Some (50 - 20)%float
  ∧ (models.available_cash <$> accounts (committed out) !! 1)
    = Some (1000 + 20)%float.
Proof.
  split; [repeat split; reflexivity|].
  apply (create_then_transfer
           {| schemas.name := "Dave"; schemas.available_cash := 50%float |}
           0 10 20 1 (account "Alice" 1000) test_accounts);
    reflexivity.
Defined.

(** X15.  A rejected call does not disturb the calls after it: on the
    database it leaves, a further call locks the same rows and commits
    the same balances as on the database before it. *)
Theorem rejected_call_is_invisible (loaded_at now now' : datetime)
    (fault fault' : option string)
    (transaction transaction' : schemas.CreateTransaction)
    (db : Database) (e : HTTPException) :
  let out := process_transaction loaded_at now fault transaction db in
  let after := process_transaction loaded_at now' fault' transaction'
                 (committed out) in
  let direct := process_transaction loaded_at now' fault' transaction' db in
  response out = inl e ->
  accounts (committed after) = accounts (committed direct)
  ∧ for_update after = for_update direct
  ∧ ((∃ r, response after = inr r) ↔ (∃ r, response direct = inr r))
  ∧ ∀ e', response after = inl e' ↔ response direct = inl e'.
Proof.
  intros out after direct He. subst after direct out.
  rewrite (raised_committed _ _ _ _ _ e He).
  set (db1 := {| accounts := accounts db; transactions := _ |}).
  assert (Hacc : accounts db1 = accounts db) by reflexivity.
  clearbody db1. clear He.
  unfold process_transaction, add_and_commit. cbn [accounts transactions].
  rewrite Hacc.
  repeat match goal with
    | |- context [if (?a <? ?b)%float then _ else _] =>
        destruct (a <? b)%float eqn:?
    | |- context [if (?a <=? ?b)%float then _ else _] =>
        destruct (a <=? b)%float eqn:?
    | |- context [if bool_decide ?P then _ else _] =>
        destruct (bool_decide_reflect P)
    | |- context [match ?m !! ?k with Some _ => _ | None => _ end] =>
        destruct (m !! k) eqn:?
    | |- context [match ?f with Some _ => _ | None => _ end] =>
        is_var f; destruct f
    end;
    cbn [response for_update committed accounts transactions];
    (split; [reflexivity|]; split; [reflexivity|]; split;
     [ split; intros [r [=]]; eexists; reflexivity
     | intros e'; split; intros [=]; subst; reflexivity ]).
Qed.

Lemma rejected_call_is_invisible_witness :
  let out :=
    process_transaction 0 10 None (payload 1500 1 2) test_accounts in
  let after := process_transaction 0 20 None (payload 200 1 2)
                 (committed out) in
  let direct := process_transaction 0 20 None (payload 200 1 2)
                  test_accounts in
  response out = inl InsufficientFunds
  ∧ accounts (committed after) = accounts (committed direct)
  ∧ for_update after = for_update direct
  ∧ ((∃ r, response after = inr r) ↔ (∃ r, response direct = inr r))
  ∧ ∀ e', response after = inl e' ↔ response direct = inl e'.
Proof.
  split; [reflexivity|].
  apply (rejected_call_is_invisible 0 10 20 None None (payload 1500 1 2)
           (payload 200 1 2) test_accounts InsufficientFunds eq_refl).
Defined.
